(** * gocollectanalytics: validation, event construction and dispatch

    A shallow embedding of [gocollectanalytics.go]: the query-string
    parameters ([url.Values]), the validator [validateParameters], the
    aggregated error type [multipleErrors] with its [Error] method, the
    event builder [createEvent], and the handler [CollectData] together
    with the goroutine it starts. *)

From stdpp Require Import base option list strings gmap fin_maps relations.

(** ** Parameter sets: [net/url.Values]

    [url.Values] is [map[string][]string].  [Get] is the library accessor
    the source calls everywhere: the first value of the key, or the empty
    string when the key is absent or carries no value. *)

Definition Get (v : gmap string (list string)) (key : string) : string :=
  match v !! key with
  | None => ""
  | Some vs =>
      match vs with
      | [] => ""
      | x :: _ => x
      end
  end.

(** ** Errors

    Go's [error] is the interface of anything with an [Error() string]
    method.  The source has two implementors: the values returned by
    [errors.New], and the slice type [multipleErrors]. *)

Class error (A : Type) := Error : A -> string.
Global Hint Mode error ! : typeclass_instances.

Record errorString := errors_New { errorString_s : string }.

Global Instance errorString_error : error errorString := errorString_s.

Global Instance errorString_eq_dec : EqDecision errorString.
Proof. solve_decision. Defined.

(** [type multipleErrors []error]; a nil slice is the empty list.  Every
    element the program ever stores in it comes from [errors.New]. *)
Definition multipleErrors := list errorString.

(** The newline of the Go literal ["\n"]. *)
Definition newline : string := String (Ascii.ascii_of_nat 10) "".

(** [func (e multipleErrors) Error() string]: the loop is the left fold
    that appends to [msg] in slice order. *)
Definition multipleErrors_Error (e : multipleErrors) : string :=
  match e with
  | [e0] => Error e0
  | _ =>
      let msg : string := "multiple errors:" in
      fold_left (fun msg err => msg +:+ (newline +:+ Error err)) e msg
  end.

Global Instance multipleErrors_error : error multipleErrors :=
  multipleErrors_Error.

(** ** Events *)

Record Event := {
  Site : string;
  ClientID : string;
  Category : string;
  Action : string;
  Label : string;
  Value : Z
}.

Global Instance Event_eq_dec : EqDecision Event.
Proof. solve_decision. Defined.

(** [func createEvent(data url.Values) Event]: the composite literal names
    four fields; [ClientID] and [Value] keep Go's zero values. *)
Definition createEvent (data : gmap string (list string)) : Event :=
  {| Site := Get data "tid";
     ClientID := "";
     Category := Get data "ec";
     Action := Get data "ea";
     Label := Get data "el";
     Value := 0 |}.

(** ** Validation *)

Definition msg_version : string := "Version v must equal 1".
Definition msg_site : string := "Site id tid must be supplied".
Definition msg_hit_type : string :=
  "Hit type 't' must be set, only type 'event' is currently supported".
Definition msg_category : string := "Events must have a category".
Definition msg_action : string := "Events must have an action".

(** [errs = append(errs, e)] under a condition. *)
Definition append_if (c : bool) (errs : multipleErrors) (e : errorString)
  : multipleErrors :=
  if c then errs ++ [e] else errs.

(** [func validateParameters(vals url.Values) (bool, multipleErrors)]. *)
Definition validateParameters (vals : gmap string (list string))
  : bool * multipleErrors :=
  let errs := [] in
  let errs := append_if (bool_decide (Get vals "v" ≠ "1"))
                errs (errors_New msg_version) in
  let errs := append_if (bool_decide (Get vals "tid" = ""))
                errs (errors_New msg_site) in
  let errs := append_if (bool_decide (Get vals "t" ≠ "event"))
                errs (errors_New msg_hit_type) in
  let errs := append_if (bool_decide (Get vals "t" = "event")
                         && bool_decide (Get vals "ec" = ""))
                errs (errors_New msg_category) in
  let errs := append_if (bool_decide (Get vals "t" = "event")
                         && bool_decide (Get vals "ea" = ""))
                errs (errors_New msg_action) in
  (* len(errs) > 0 *)
  if bool_decide (0 < length errs) then (false, errs) else (true, []).

(** ** The rule table of the specification

    The five rules as the specification words them, each with its message,
    in the order of evaluation.  [rule_holds] decides a rule on a parameter
    set; [violated_messages] lists the messages of the violated rules. *)

Inductive rule :=
  | RuleVersion | RuleSite | RuleHitType | RuleCategory | RuleAction.

Definition rules : list rule :=
  [RuleVersion; RuleSite; RuleHitType; RuleCategory; RuleAction].

Definition rule_holds (vals : gmap string (list string)) (r : rule) : bool :=
  match r with
  | RuleVersion => bool_decide (Get vals "v" = "1")
  | RuleSite => bool_decide (Get vals "tid" ≠ "")
  | RuleHitType => bool_decide (Get vals "t" = "event")
  | RuleCategory =>
      if bool_decide (Get vals "t" = "event")
      then bool_decide (Get vals "ec" ≠ "") else true
  | RuleAction =>
      if bool_decide (Get vals "t" = "event")
      then bool_decide (Get vals "ea" ≠ "") else true
  end.

Definition rule_message (r : rule) : string :=
  match r with
  | RuleVersion => msg_version
  | RuleSite => msg_site
  | RuleHitType => msg_hit_type
  | RuleCategory => msg_category
  | RuleAction => msg_action
  end.

Definition violated (vals : gmap string (list string)) : list rule :=
  filter (fun r => rule_holds vals r = false) rules.

Definition violated_messages (vals : gmap string (list string))
  : list string :=
  rule_message <$> violated vals.

(** Messages carried by an aggregated error, in slice order. *)
Definition messages (e : multipleErrors) : list string := Error <$> e.

(** The rendering the specification describes for two or more messages:
    the header followed by one line per message. *)
Definition render_lines (msgs : list string) : string :=
  "multiple errors:" +:+ foldr (fun m rest => newline +:+ m +:+ rest) "" msgs.

(** ** The handler and its world

    [CollectData] acts on things outside itself: the response writer [w],
    the process log, the collector's store, and the goroutine it starts.
    They are the fields of [World]; a handler is a state transformer over
    it.  [calls] is a ghost history of the calls of [createEvent] and of
    the store's [LogIt], kept so that "is not called" can be stated. *)

Definition StatusOK : Z := 200.
Definition StatusBadRequest : Z := 400.

(** [http.ResponseWriter] as a recorder: the status code once
    [WriteHeader] has been called, and the bytes written to the body. *)
Record ResponseWriter := { Code : option Z; Body : string }.

Definition new_response : ResponseWriter := {| Code := None; Body := "" |}.

(** [type Datastore interface { LogIt(interface{}) error }]: a store with
    state [DS]; [None] is Go's nil error. *)
Class Datastore (DS : Type) := LogIt : Event -> DS -> option errorString * DS.
Global Hint Mode Datastore ! : typeclass_instances.

(** [type Collector struct { store Datastore }]. *)
Record Collector (DS : Type) := { store : DS }.
Arguments store {DS} _.

Definition NewCollector {DS : Type} (ds : DS) : Collector DS := {| store := ds |}.

(** The one [go] statement of the program starts [coll.record(e)]. *)
Inductive goroutine := go_record (datatype : Event).

Inductive call :=
  | call_createEvent (data : gmap string (list string))
  | call_LogIt (datatype : Event).

(** [*http.Request], reduced to what the handler reads: [r.URL.Query()]. *)
Record Request := { URL_Query : gmap string (list string) }.

Record World (DS : Type) := {
  w : ResponseWriter;
  log : list string;
  coll : Collector DS;
  goroutines : list goroutine;
  calls : list call
}.
Arguments w {DS} _.
Arguments log {DS} _.
Arguments coll {DS} _.
Arguments goroutines {DS} _.
Arguments calls {DS} _.

Definition M (DS A : Type) : Type := World DS -> A * World DS.

Global Instance M_ret {DS} : MRet (M DS) := fun A a σ => (a, σ).
Global Instance M_bind {DS} : MBind (M DS) :=
  fun A B f m σ => let '(a, σ') := m σ in f a σ'.

Definition exec {DS A} (m : M DS A) (σ : World DS) : World DS := (m σ).2.

Section Collector.
Context {DS : Type} `{!Datastore DS}.

(** [w.WriteHeader(statusCode)]: only the first call sets the code. *)
Definition WriteHeader (statusCode : Z) : M DS unit := fun σ =>
  (tt, {| w := match Code (w σ) with
               | None => {| Code := Some statusCode; Body := Body (w σ) |}
               | Some _ => w σ
               end;
          log := log σ; coll := coll σ;
          goroutines := goroutines σ; calls := calls σ |}).

(** [log.Print(v)] for a value that implements [error]: one log entry
    holding [v.Error()]. *)
Definition log_Print {A} `{!error A} (v : A) : M DS unit := fun σ =>
  (tt, {| w := w σ; log := log σ ++ [Error v]; coll := coll σ;
          goroutines := goroutines σ; calls := calls σ |}).

(** [go g]: the goroutine is queued; it runs when the scheduler picks it. *)
Definition go (g : goroutine) : M DS unit := fun σ =>
  (tt, {| w := w σ; log := log σ; coll := coll σ;
          goroutines := goroutines σ ++ [g]; calls := calls σ |}).

(** [coll.store.LogIt(datatype)]. *)
Definition store_LogIt (datatype : Event) : M DS (option errorString) :=
  fun σ =>
    let '(err, ds) := LogIt datatype (store (coll σ)) in
    (err, {| w := w σ; log := log σ; coll := {| store := ds |};
             goroutines := goroutines σ;
             calls := calls σ ++ [call_LogIt datatype] |}).

(** [e := createEvent(params)], noted in the call history. *)
Definition call_of_createEvent (data : gmap string (list string))
  : M DS Event := fun σ =>
  (createEvent data,
   {| w := w σ; log := log σ; coll := coll σ;
      goroutines := goroutines σ;
      calls := calls σ ++ [call_createEvent data] |}).

(** [func (coll *Collector) record(datatype interface{}) string]. *)
Definition record (datatype : Event) : M DS string :=
  err ← store_LogIt datatype;
  match err with
  | Some _ => mret "boo!"
  | None => mret "ok"
  end.

(** [func (coll *Collector) CollectData(w http.ResponseWriter, r *http.Request)]. *)
Definition CollectData (r : Request) : M DS unit :=
  let params := URL_Query r in
  let '(dataValid, err) := validateParameters params in
  if negb (bool_decide (dataValid = true)) then
    _ ← log_Print err;
    WriteHeader StatusBadRequest
  else
    e ← call_of_createEvent params;
    _ ← go (go_record e);
    WriteHeader StatusOK.

(** Running a started goroutine: the call's result is dropped. *)
Definition run_goroutine (g : goroutine) : M DS unit :=
  match g with
  | go_record datatype => _ ← record datatype; mret tt
  end.

Definition set_goroutines (gs : list goroutine) (σ : World DS) : World DS :=
  {| w := w σ; log := log σ; coll := coll σ;
     goroutines := gs; calls := calls σ |}.

(** One scheduler step: any queued goroutine is taken and run. *)
Inductive sched_step : World DS -> World DS -> Prop :=
  | sched_run σ gs1 g gs2 :
      goroutines σ = gs1 ++ g :: gs2 ->
      sched_step σ (exec (run_goroutine g) (set_goroutines (gs1 ++ gs2) σ)).

(** The world a request arrives in: a fresh response, nothing queued. *)
Definition initial_world (ds : DS) : World DS :=
  {| w := new_response; log := []; coll := NewCollector ds;
     goroutines := []; calls := [] |}.
End Collector.

(** Two stores for the examples: one keeps what it is given, one fails. *)
Definition memory_store := list Event.
Global Instance memory_store_Datastore : Datastore memory_store :=
  fun datatype ds => (None, ds ++ [datatype]).

Inductive failing_store := FailingStore.
Global Instance failing_store_Datastore : Datastore failing_store :=
  fun _ ds => (Some (errors_New "store unavailable"), ds).

(** A value list cut down to the singleton of its first element (a list
    without values stays as it is). *)
Definition first_only (vs : list string) : list string :=
  match vs with
  | [] => []
  | x :: _ => [x]
  end.

Definition first_values (vals : gmap string (list string))
  : gmap string (list string) :=
  first_only <$> vals.

(** Literal parameter sets used in the examples. *)
Definition params_of (l : list (string * string)) : gmap string (list string) :=
  list_to_map ((fun kv => (kv.1, [kv.2])) <$> l).

(** The keys [validateParameters] reads. *)
Definition validated_keys : list string := ["v"; "tid"; "t"; "ec"; "ea"].

(** The keys [createEvent] reads. *)
Definition event_keys : list string := ["tid"; "ec"; "ea"; "el"].

(** The parameter sets of the three end-to-end scenarios of the
    specification, and scenario 2 with keys the validator does not read. *)
Definition scenario1 : gmap string (list string) :=
  params_of [("v", "1"); ("tid", "site1"); ("t", "event");
             ("ec", "nav"); ("ea", "click")].

Definition scenario2 : gmap string (list string) :=
  params_of [("v", "1"); ("tid", "site1"); ("t", "event"); ("ea", "click")].

Definition scenario3 : gmap string (list string) :=
  params_of [("v", "2"); ("tid", ""); ("t", "pageview")].

Definition scenario2_extra : gmap string (list string) :=
  <["cid" := ["c-42"]]> (<["el" := ["top"]]> (<["utm" := ["x"; "y"]]> scenario2)).

(** The requests of scenarios 1 and 2. *)
Definition request1 : Request := {| URL_Query := scenario1 |}.
Definition request2 : Request := {| URL_Query := scenario2 |}.

(** The world after the handler has served scenario 1 over a store that
    fails, and the world once its goroutine has run. *)
Definition failing_served : World failing_store :=
  exec (CollectData request1) (initial_world FailingStore).

Definition failing_recorded : World failing_store :=
  exec (run_goroutine (go_record (createEvent scenario1)))
    (set_goroutines [] failing_served).

(** ** The collector under a server

    What the call history and the goroutine queue hold, and the steps of a
    process that serves requests with [CollectData] while the goroutines it
    started run in between. *)

(** An event whose site, category and action are all non-empty. *)
Definition complete (e : Event) : Prop :=
  Site e ≠ "" /\ Category e ≠ "" /\ Action e ≠ "".

(** The events of the queued [coll.record(e)] goroutines. *)
Definition queued_events (gs : list goroutine) : list Event :=
  (fun g => match g with go_record datatype => datatype end) <$> gs.

(** The events the store's [LogIt] has been called with. *)
Definition logged_events (cs : list call) : list Event :=
  omap (fun c => match c with
                 | call_LogIt datatype => Some datatype
                 | call_createEvent _ => None
                 end) cs.

(** The parameter sets [createEvent] has been called with. *)
Definition created_params (cs : list call) : list (gmap string (list string)) :=
  omap (fun c => match c with
                 | call_createEvent data => Some data
                 | call_LogIt _ => None
                 end) cs.

Section Server.
Context {DS : Type} `{!Datastore DS}.

(** The server hands the handler the response writer of the request. *)
Definition set_w (rw : ResponseWriter) (σ : World DS) : World DS :=
  {| w := rw; log := log σ; coll := coll σ;
     goroutines := goroutines σ; calls := calls σ |}.

(** One step of the process: a request is served with its own response
    writer, or a queued goroutine runs. *)
Inductive server_step : World DS -> World DS -> Prop :=
  | server_serve σ rw r :
      server_step σ (exec (CollectData r) (set_w rw σ))
  | server_sched σ σ' :
      sched_step σ σ' -> server_step σ σ'.
End Server.

(** The log entry of a request whose violated rules carry the messages
    [msgs]: none when no rule is violated, the message itself when one is,
    the header and one line per message otherwise. *)
Definition log_entries (msgs : list string) : list string :=
  match msgs with
  | [] => []
  | [m] => [m]
  | _ => [render_lines msgs]
  end.

(** Scenario 1 with a client id and a value, which the builder skips. *)
Definition scenario1_extra : gmap string (list string) :=
  <["cid" := ["c-42"]]> (<["ev" := ["7"]]> (<["v" := ["9"]]> scenario1)).

(** What stays true of a serving process: [createEvent] has been called on
    validated parameter sets only, and the events built are, each once,
    either delivered to [LogIt] or still queued. *)
Definition server_inv {DS : Type} (σ : World DS) : Prop :=
  Forall (fun data => (validateParameters data).1 = true)
    (created_params (calls σ))
  /\ logged_events (calls σ) ++ queued_events (goroutines σ)
     ≡ₚ createEvent <$> created_params (calls σ).

(** * Properties *)

(** ** Reading parameters *)

Example validate_scenario1 :
  validateParameters scenario1 = (true, []).
Proof. vm_compute. reflexivity. Qed.

Example validate_scenario2 :
  messages (validateParameters scenario2).2 = [msg_category].
Proof. vm_compute. reflexivity. Qed.

Lemma Get_absent (vals : gmap string (list string)) key :
  vals !! key = None -> Get vals key = "".
Proof. intros H. unfold Get. by rewrite H. Qed.

Lemma Get_insert_eq (vals : gmap string (list string)) key x xs :
  Get (<[key := x :: xs]> vals) key = x.
Proof. unfold Get. by rewrite lookup_insert_eq. Qed.

Lemma Get_insert_ne (vals : gmap string (list string)) key key' vs :
  key ≠ key' -> Get (<[key := vs]> vals) key' = Get vals key'.
Proof. intros H. unfold Get. by rewrite lookup_insert_ne. Qed.

Lemma Get_lookup_ext (vals1 vals2 : gmap string (list string)) key :
  vals1 !! key = vals2 !! key -> Get vals1 key = Get vals2 key.
Proof. intros H. unfold Get. by rewrite H. Qed.

(** Cutting every value list down to its first element changes no read. *)
Lemma Get_first_values (vals : gmap string (list string)) key :
  Get (first_values vals) key = Get vals key.
Proof.
  unfold Get, first_values. rewrite lookup_fmap.
  destruct (vals !! key) as [[|x vs]|]; reflexivity.
Qed.

(** The validator reads its argument only through [Get] at five keys. *)
Lemma validateParameters_Get_ext (vals1 vals2 : gmap string (list string)) :
  (forall key, key ∈ validated_keys -> Get vals1 key = Get vals2 key) ->
  validateParameters vals1 = validateParameters vals2.
Proof.
  intros H. unfold validateParameters.
  rewrite (H "v"), (H "tid"), (H "t"), (H "ec"), (H "ea");
    first reflexivity; unfold validated_keys; set_solver.
Qed.

(** The event builder reads its argument only through [Get] at four keys. *)
Lemma createEvent_Get_ext (data1 data2 : gmap string (list string)) :
  (forall key, key ∈ event_keys -> Get data1 key = Get data2 key) ->
  createEvent data1 = createEvent data2.
Proof.
  intros H. unfold createEvent.
  rewrite (H "tid"), (H "ec"), (H "ea"), (H "el");
    first reflexivity; unfold event_keys; set_solver.
Qed.

(** ** The validator against the rule table *)

(** Case analysis on the five tests of [validateParameters]: every test is
    a boolean built from five equations on the values read. *)
Ltac validate_cases vals :=
  unfold validateParameters, append_if, violated_messages, violated, rules,
    messages;
  cbn [filter list_filter rule_holds];
  rewrite ?bool_decide_not;
  generalize (bool_decide (Get vals "v" = "1")),
             (bool_decide (Get vals "tid" = "")),
             (bool_decide (Get vals "t" = "event")),
             (bool_decide (Get vals "ec" = "")),
             (bool_decide (Get vals "ea" = ""));
  intros [] [] [] [] [].

Lemma validateParameters_messages (vals : gmap string (list string)) :
  messages (validateParameters vals).2 = violated_messages vals.
Proof. validate_cases vals; vm_compute; reflexivity. Qed.

Lemma validateParameters_valid (vals : gmap string (list string)) :
  (validateParameters vals).1 = forallb (rule_holds vals) rules.
Proof.
  unfold rules. cbn [forallb rule_holds].
  validate_cases vals; vm_compute; reflexivity.
Qed.

Lemma rule_in_rules (r : rule) : r ∈ rules.
Proof. unfold rules. destruct r; set_solver. Qed.

(** C1: the validator answers valid exactly when every one of the five
    rules holds, a valid answer carries no message, and the messages of any
    answer are those of the violated rules, in the order of the rule table
    and with nothing else. *)
Theorem validateParameters_rule_table (vals : gmap string (list string)) :
  ((validateParameters vals).1 = true <-> forall r, rule_holds vals r = true)
  /\ ((validateParameters vals).1 = true -> (validateParameters vals).2 = [])
  /\ ((validateParameters vals).1 = false <-> violated vals ≠ [])
  /\ messages (validateParameters vals).2 = violated_messages vals.
Proof.
  assert (Hsplit : (validateParameters vals).1 = true
                   <-> forall r, rule_holds vals r = true).
  { rewrite validateParameters_valid, forallb_forall. split.
    - intros H r. apply H, list_elem_of_In, rule_in_rules.
    - intros H r _. apply H. }
  split; [exact Hsplit|]. split; [|split].
  - validate_cases vals; vm_compute; congruence.
  - validate_cases vals; vm_compute; split; congruence.
  - apply validateParameters_messages.
Qed.

(** C2: for a hit type other than "event" the category and action messages
    are never produced (the answer holds at most the version and site
    messages, then the hit-type message); the parameter set v=2, tid empty,
    t=pageview yields exactly the version, site and hit-type messages. *)
Theorem validateParameters_not_event :
  (forall vals : gmap string (list string),
      Get vals "t" ≠ "event" ->
      (msg_category ∉ messages (validateParameters vals).2)
      /\ (msg_action ∉ messages (validateParameters vals).2)
      /\ messages (validateParameters vals).2
         = (if bool_decide (Get vals "v" = "1") then [] else [msg_version])
             ++ (if bool_decide (Get vals "tid" = "") then [msg_site] else [])
             ++ [msg_hit_type])
  /\ messages (validateParameters scenario3).2
     = [msg_version; msg_site; msg_hit_type].
Proof.
  split; [|vm_compute; reflexivity].
  intros vals Hne.
  assert (Ht : bool_decide (Get vals "t" = "event") = false)
    by (by apply bool_decide_eq_false_2).
  clear Hne. revert Ht.
  validate_cases vals; intros Ht; try discriminate Ht; cbn;
    (split; [|split; [|reflexivity]]);
    apply (bool_decide_unpack _); vm_compute; exact I.
Qed.

Lemma validateParameters_not_event_witness :
  (msg_category ∉ messages (validateParameters scenario3).2)
  /\ (msg_action ∉ messages (validateParameters scenario3).2)
  /\ messages (validateParameters scenario3).2
     = [msg_version; msg_site; msg_hit_type].
Proof.
  refine (proj1 validateParameters_not_event scenario3 _).
  vm_compute. discriminate.
Defined.

(** C10: the messages of an answer are pairwise distinct, there are at most
    four of them, and the hit-type message never stands in one list with the
    category or the action message. *)
Theorem validateParameters_errors_distinct (vals : gmap string (list string)) :
  NoDup (messages (validateParameters vals).2)
  /\ length (validateParameters vals).2 <= 4
  /\ (msg_hit_type ∈ messages (validateParameters vals).2 ->
      (msg_category ∉ messages (validateParameters vals).2)
      /\ (msg_action ∉ messages (validateParameters vals).2)).
Proof.
  validate_cases vals; apply (bool_decide_unpack _); vm_compute; exact I.
Qed.

(** ** Rendering an aggregated error *)

Lemma append_String a (s1 s2 : string) :
  String a s1 +:+ s2 = String a (s1 +:+ s2).
Proof. reflexivity. Qed.

Lemma append_assoc (s1 s2 s3 : string) :
  (s1 +:+ s2) +:+ s3 = s1 +:+ (s2 +:+ s3).
Proof.
  induction s1 as [|a s1 IH]; [reflexivity|].
  rewrite !append_String. by rewrite IH.
Qed.

Lemma append_empty_r (s1 : string) : s1 +:+ "" = s1.
Proof.
  induction s1 as [|a s1 IH]; [reflexivity|].
  rewrite append_String. by rewrite IH.
Qed.

(** The loop of [Error], started from any prefix [msg]. *)
Lemma Error_loop (e : multipleErrors) (msg : string) :
  fold_left (fun msg err => msg +:+ (newline +:+ Error err)) e msg
  = msg +:+ foldr (fun m rest => newline +:+ m +:+ rest) "" (messages e).
Proof.
  revert msg. induction e as [|e0 e IH]; intros msg; cbn [fold_left].
  - cbn. by rewrite append_empty_r.
  - rewrite IH. unfold messages. rewrite fmap_cons. cbn [foldr].
    by rewrite !append_assoc.
Qed.

(** C3: an aggregated error with exactly one entry renders as that entry's
    message; one with more than one entry renders as the header
    "multiple errors:" followed, for each message in slice order, by a
    newline and the message. *)
Theorem multipleErrors_Error_render :
  (forall e0 : errorString, multipleErrors_Error [e0] = Error e0)
  /\ (forall e : multipleErrors,
         1 < length e ->
         multipleErrors_Error e = render_lines (messages e)).
Proof.
  split; [reflexivity|].
  intros e Hlen. unfold multipleErrors_Error, render_lines.
  destruct e as [|e0 [|e1 e]]; cbn in Hlen; [lia..|].
  apply Error_loop.
Qed.

Lemma multipleErrors_Error_render_witness :
  multipleErrors_Error [errors_New msg_version; errors_New msg_site]
  = "multiple errors:" +:+ newline +:+ msg_version +:+ newline +:+ msg_site.
Proof.
  rewrite (proj2 multipleErrors_Error_render
             [errors_New msg_version; errors_New msg_site]);
    [reflexivity | cbn; lia].
Defined.

(** ** The event builder *)

(** C4: the event takes its site from tid, its category from ec, its action
    from ea and its label from el; the client id is empty and the value is
    zero; on the parameters of scenario 1 this is the event with site
    "site1", category "nav", action "click", empty label and value 0. *)
Theorem createEvent_fields :
  (forall data : gmap string (list string),
      Site (createEvent data) = Get data "tid"
      /\ Category (createEvent data) = Get data "ec"
      /\ Action (createEvent data) = Get data "ea"
      /\ Label (createEvent data) = Get data "el"
      /\ ClientID (createEvent data) = ""
      /\ Value (createEvent data) = 0%Z)
  /\ createEvent scenario1
     = {| Site := "site1"; ClientID := ""; Category := "nav";
          Action := "click"; Label := ""; Value := 0 |}.
Proof.
  split; [intros data; repeat split | vm_compute; reflexivity].
Qed.

(** ** What the two functions read *)

(** A key that is absent and a key bound to the empty string read alike. *)
Lemma Get_insert_empty (vals : gmap string (list string)) key key' :
  vals !! key = None -> Get (<[key := [""]]> vals) key' = Get vals key'.
Proof.
  intros Habs. destruct (decide (key = key')) as [<-|Hne].
  - by rewrite Get_insert_eq, Get_absent.
  - by apply Get_insert_ne.
Qed.

(** C7: both functions return a result on every parameter set; a key that
    is absent reads as the empty string, and binding it to the empty string
    changes neither result; parameter sets that read alike at every key
    (equal ones in particular) get the same validation answer and the same
    event. *)
Theorem validate_create_total_deterministic :
  (forall vals : gmap string (list string),
      exists valid errs e,
        validateParameters vals = (valid, errs) /\ createEvent vals = e)
  /\ (forall (vals : gmap string (list string)) key,
         vals !! key = None ->
         Get vals key = ""
         /\ validateParameters (<[key := [""]]> vals) = validateParameters vals
         /\ createEvent (<[key := [""]]> vals) = createEvent vals)
  /\ (forall vals1 vals2 : gmap string (list string),
         (forall key, Get vals1 key = Get vals2 key) ->
         validateParameters vals1 = validateParameters vals2
         /\ createEvent vals1 = createEvent vals2)
  /\ (forall vals1 vals2 : gmap string (list string),
         (forall key, vals1 !! key = vals2 !! key) ->
         validateParameters vals1 = validateParameters vals2
         /\ createEvent vals1 = createEvent vals2).
Proof.
  split; [|split; [|split]].
  - intros vals. destruct (validateParameters vals) as [valid errs].
    by exists valid, errs, (createEvent vals).
  - intros vals key Habs. split; [by apply Get_absent|]. split.
    + apply validateParameters_Get_ext. intros key' _.
      by apply Get_insert_empty.
    + apply createEvent_Get_ext. intros key' _. by apply Get_insert_empty.
  - intros vals1 vals2 H. split.
    + apply validateParameters_Get_ext. intros key _. apply H.
    + apply createEvent_Get_ext. intros key _. apply H.
  - intros vals1 vals2 H. split.
    + apply validateParameters_Get_ext. intros key _.
      apply Get_lookup_ext, H.
    + apply createEvent_Get_ext. intros key _. apply Get_lookup_ext, H.
Qed.

Lemma validate_create_total_deterministic_witness :
  Get scenario2 "ec" = ""
  /\ validateParameters (<["ec" := [""]]> scenario2)
     = validateParameters scenario2
  /\ createEvent (<["ec" := [""]]> scenario2) = createEvent scenario2.
Proof.
  refine (proj1 (proj2 validate_create_total_deterministic) scenario2 "ec" _).
  vm_compute. reflexivity.
Defined.

(** C8: cutting every key's value list down to its first value changes
    neither the validation answer nor the event. *)
Theorem first_values_unread (vals : gmap string (list string)) :
  validateParameters (first_values vals) = validateParameters vals
  /\ createEvent (first_values vals) = createEvent vals.
Proof.
  split.
  - apply validateParameters_Get_ext. intros key _. apply Get_first_values.
  - apply createEvent_Get_ext. intros key _. apply Get_first_values.
Qed.

(** C9: parameter sets that agree on the five keys v, tid, t, ec and ea get
    the same validation answer, whatever else they hold. *)
Theorem validateParameters_five_keys (vals1 vals2 : gmap string (list string)) :
  (forall key, key ∈ validated_keys -> vals1 !! key = vals2 !! key) ->
  validateParameters vals1 = validateParameters vals2.
Proof.
  intros H. apply validateParameters_Get_ext.
  intros key Hkey. apply Get_lookup_ext, H, Hkey.
Qed.

Lemma validateParameters_five_keys_witness :
  validateParameters scenario2 = validateParameters scenario2_extra.
Proof.
  apply (validateParameters_five_keys scenario2 scenario2_extra).
  intros key Hkey. unfold validated_keys in Hkey.
  repeat (apply elem_of_cons in Hkey as [->|Hkey]; [vm_compute; reflexivity|]).
  by apply elem_of_nil in Hkey.
Defined.

(** ** The handler *)

Section CollectorProperties.
Context {DS : Type} `{!Datastore DS}.
Implicit Types (σ : World DS) (r : Request) (g : goroutine).

(** [record] answers "boo!" on a store error and "ok" otherwise, and
    touches neither the response nor the log. *)
Lemma record_result (datatype : Event) σ :
  (record datatype σ).1
  = match (LogIt datatype (store (coll σ))).1 with
    | Some _ => "boo!"
    | None => "ok"
    end.
Proof.
  unfold record, mbind, M_bind, store_LogIt.
  destruct (LogIt datatype (store (coll σ))) as [[err|] ds]; reflexivity.
Qed.

Lemma run_goroutine_frame g σ :
  w (exec (run_goroutine g) σ) = w σ
  /\ log (exec (run_goroutine g) σ) = log σ
  /\ goroutines (exec (run_goroutine g) σ) = goroutines σ.
Proof.
  destruct g as [datatype].
  unfold exec, run_goroutine, record, mbind, M_bind, store_LogIt.
  destruct (LogIt datatype (store (coll σ))) as [[err|] ds]; cbn; done.
Qed.

(** A goroutine that runs between the [go] statement and the call of
  [WriteHeader] leaves the same world as one that runs after it. *)
Lemma run_goroutine_WriteHeader_commute g (statusCode : Z) σ :
  exec (WriteHeader statusCode) (exec (run_goroutine g) σ)
  = exec (run_goroutine g) (exec (WriteHeader statusCode) σ).
Proof.
  destruct g as [datatype].
  unfold exec, run_goroutine, record, mbind, M_bind, store_LogIt, WriteHeader.
  cbn. destruct (LogIt datatype (store (coll σ))) as [[err|] ds]; reflexivity.
Qed.

Lemma sched_step_frame σ σ' :
  sched_step σ σ' -> w σ' = w σ /\ log σ' = log σ.
Proof.
  intros Hstep. destruct Hstep as [σ gs1 g gs2 Hgs].
  destruct (run_goroutine_frame g (set_goroutines (gs1 ++ gs2) σ))
    as (Hw & Hlog & _).
  by rewrite Hw, Hlog.
Qed.

(** However the queued goroutines are scheduled, the response and the log
    stay as they are. *)
Lemma sched_steps_frame σ σ' :
  rtc sched_step σ σ' -> w σ' = w σ /\ log σ' = log σ.
Proof.
  induction 1 as [σ|σ σ1 σ' Hstep _ [IHw IHlog]]; [done|].
  destruct (sched_step_frame _ _ Hstep) as [Hw Hlog].
  split; congruence.
Qed.

(** With nothing queued the scheduler has nothing to run. *)
Lemma sched_steps_idle σ σ' :
  goroutines σ = [] -> rtc sched_step σ σ' -> σ' = σ.
Proof.
  intros Hidle Hsteps. destruct Hsteps as [σ|σ σ1 σ' Hstep _]; [done|].
  destruct Hstep as [σ gs1 g gs2 Hgs]. rewrite Hidle in Hgs.
  by destruct gs1.
Qed.

Lemma CollectData_invalid_exec r σ :
  (validateParameters (URL_Query r)).1 = false ->
  exec (CollectData r) σ
  = exec (WriteHeader StatusBadRequest)
      (exec (log_Print (validateParameters (URL_Query r)).2) σ).
Proof.
  intros Hinv. unfold CollectData.
  destruct (validateParameters (URL_Query r)) as [dataValid err].
  cbn in Hinv. subst dataValid. reflexivity.
Qed.

Lemma CollectData_valid_exec r σ :
  (validateParameters (URL_Query r)).1 = true ->
  exec (CollectData r) σ
  = exec (WriteHeader StatusOK)
      (exec (go (go_record (createEvent (URL_Query r))))
         (exec (call_of_createEvent (URL_Query r)) σ)).
Proof.
  intros Hval. unfold CollectData.
  destruct (validateParameters (URL_Query r)) as [dataValid err].
  cbn in Hval. subst dataValid. reflexivity.
Qed.

(** C5: on a parameter set that fails validation the handler sets status
    400 and writes no body; the aggregated error is printed to the log and
    nowhere else; [createEvent] and [LogIt] are not called, the store is
    as before and no goroutine is started, so with nothing queued before
    the request the store is never reached afterwards either. *)
Theorem CollectData_invalid r σ :
  (validateParameters (URL_Query r)).1 = false ->
  w σ = new_response ->
  w (exec (CollectData r) σ)
  = {| Code := Some StatusBadRequest; Body := "" |}
  /\ log (exec (CollectData r) σ)
     = log σ ++ [Error (validateParameters (URL_Query r)).2]
  /\ calls (exec (CollectData r) σ) = calls σ
  /\ coll (exec (CollectData r) σ) = coll σ
  /\ goroutines (exec (CollectData r) σ) = goroutines σ
  /\ (goroutines σ = [] ->
      forall σ', rtc sched_step (exec (CollectData r) σ) σ' ->
                 σ' = exec (CollectData r) σ).
Proof.
  intros Hinv Hfresh. rewrite (CollectData_invalid_exec _ _ Hinv).
  unfold exec, WriteHeader, log_Print. cbn. rewrite Hfresh. cbn.
  repeat split; try reflexivity.
  intros Hidle σ' Hsteps. by apply sched_steps_idle in Hsteps.
Qed.

(** C6, as the code has it: on a parameter set that passes validation the
    handler builds the event, starts [record] on it in a goroutine and
    sets status 200 with no body, logging nothing; whatever the store
    answers and however the goroutine is scheduled, the response stays
    200 with an empty body and the log stays as it was: [record] turns a
    store error into the string "boo!", which the goroutine drops. *)
Theorem CollectData_valid r σ :
  (validateParameters (URL_Query r)).1 = true ->
  w σ = new_response ->
  (w (exec (CollectData r) σ) = {| Code := Some StatusOK; Body := "" |}
   /\ log (exec (CollectData r) σ) = log σ
   /\ goroutines (exec (CollectData r) σ)
      = goroutines σ ++ [go_record (createEvent (URL_Query r))])
  /\ (forall σ', rtc sched_step (exec (CollectData r) σ) σ' ->
                 w σ' = {| Code := Some StatusOK; Body := "" |}
                 /\ log σ' = log σ)
  /\ (forall (datatype : Event) σ1,
         (record datatype σ1).1
         = (if (LogIt datatype (store (coll σ1))).1 is Some _ then "boo!" else "ok")
         /\ w (exec (record datatype) σ1) = w σ1
         /\ log (exec (record datatype) σ1) = log σ1).
Proof.
  intros Hval Hfresh.
  assert (Hnow : w (exec (CollectData r) σ)
                 = {| Code := Some StatusOK; Body := "" |}
                 /\ log (exec (CollectData r) σ) = log σ
                 /\ goroutines (exec (CollectData r) σ)
                    = goroutines σ ++ [go_record (createEvent (URL_Query r))]).
  { rewrite (CollectData_valid_exec _ _ Hval).
    unfold exec, WriteHeader, go, call_of_createEvent. cbn.
    rewrite Hfresh. done. }
  split; [exact Hnow|]. split.
  - intros σ' Hsteps. destruct (sched_steps_frame _ _ Hsteps) as [Hw Hlog].
    destruct Hnow as (Hw0 & Hlog0 & _). split; congruence.
  - intros datatype σ1. split.
    + rewrite record_result.
      by destruct ((LogIt datatype (store (coll σ1))).1).
    + destruct (run_goroutine_frame (go_record datatype) σ1)
        as (Hw & Hlog & _).
      unfold exec, run_goroutine, mbind, M_bind in Hw, Hlog.
      unfold exec. destruct (record datatype σ1) as [res σ2]. done.
Qed.
End CollectorProperties.

Lemma CollectData_invalid_witness :
  w (exec (CollectData request2) (initial_world ([] : memory_store)))
  = {| Code := Some 400%Z; Body := "" |}
  /\ log (exec (CollectData request2) (initial_world ([] : memory_store)))
     = [msg_category]
  /\ calls (exec (CollectData request2) (initial_world ([] : memory_store)))
     = []
  /\ store (coll (exec (CollectData request2)
                    (initial_world ([] : memory_store))))
     = [].
Proof.
  destruct (CollectData_invalid request2 (initial_world ([] : memory_store)))
    as (Hw & Hlog & Hcalls & Hcoll & _); [vm_compute; reflexivity..|].
  rewrite Hw, Hlog, Hcalls, Hcoll. repeat split.
Defined.

(** The goroutine of scenario 1 is what the scheduler finds queued. *)
Lemma failing_served_step : sched_step failing_served failing_recorded.
Proof.
  apply (sched_run failing_served [] (go_record (createEvent scenario1)) []).
  vm_compute. reflexivity.
Qed.

Lemma CollectData_valid_witness :
  w failing_recorded = {| Code := Some 200%Z; Body := "" |}
  /\ log failing_recorded = [].
Proof.
  apply (CollectData_valid request1 (initial_world FailingStore));
    [vm_compute; reflexivity.. |].
  apply rtc_once, failing_served_step.
Defined.

(** C6, the part that fails: scenario 1 is served over a store whose
    [LogIt] answers with an error.  The goroutine runs, the store is called
    and fails, [record] answers "boo!", and the log is still empty: the
    store error is dropped, not logged. *)
Lemma record_error_not_logged :
  w failing_served = {| Code := Some 200%Z; Body := "" |}
  /\ goroutines failing_served = [go_record (createEvent scenario1)]
  /\ sched_step failing_served failing_recorded
  /\ calls failing_recorded
     = [call_createEvent scenario1; call_LogIt (createEvent scenario1)]
  /\ (LogIt (createEvent scenario1) (store (coll failing_served))).1
     = Some (errors_New "store unavailable")
  /\ (record (createEvent scenario1) (set_goroutines [] failing_served)).1
     = "boo!"
  /\ log failing_recorded = [].
Proof.
  repeat split; try (vm_compute; reflexivity).
  apply failing_served_step.
Qed.

(** * Further properties of the code *)

(** ** The validator and the builder together *)

Lemma validateParameters_valid_nil (vals : gmap string (list string)) :
  (validateParameters vals).1 = true -> (validateParameters vals).2 = [].
Proof. validate_cases vals; vm_compute; congruence. Qed.

Lemma validateParameters_valid_reads (vals : gmap string (list string)) :
  (validateParameters vals).1 = true ->
  Get vals "v" = "1" /\ Get vals "tid" ≠ "" /\ Get vals "t" = "event"
  /\ Get vals "ec" ≠ "" /\ Get vals "ea" ≠ "".
Proof.
  rewrite validateParameters_valid. unfold rules. cbn [forallb rule_holds].
  rewrite !andb_true_iff. intros (Hv & Htid & Ht & Hec & Hea & _).
  rewrite Ht in Hec, Hea.
  apply bool_decide_eq_true_1 in Hv, Htid, Ht, Hec, Hea. done.
Qed.

Lemma validateParameters_invalid_nonempty (vals : gmap string (list string)) :
  (validateParameters vals).1 = false -> (validateParameters vals).2 ≠ [].
Proof. validate_cases vals; vm_compute; congruence. Qed.

(** X1: the boolean and the error list of an answer never disagree: either
    the answer is valid with no error, or it is invalid with between one
    and four errors. *)
Theorem validateParameters_answer_shape (vals : gmap string (list string)) :
  ((validateParameters vals).1 = true /\ (validateParameters vals).2 = [])
  \/ ((validateParameters vals).1 = false
      /\ 1 <= length (validateParameters vals).2 <= 4).
Proof.
  validate_cases vals; vm_compute;
    first [left; split; reflexivity | right; split; [reflexivity | lia]].
Qed.

Lemma createEvent_complete_reads (vals : gmap string (list string)) :
  (validateParameters vals).1 = true -> complete (createEvent vals).
Proof.
  intros Hval.
  destruct (validateParameters_valid_reads vals Hval)
    as (_ & Htid & _ & Hec & Hea).
  unfold complete, createEvent. cbn. done.
Qed.

(** X2: an event built from parameters that pass validation has a
    non-empty site, category and action, and the parameters read "1" at v
    and "event" at t. *)
Theorem createEvent_complete (vals : gmap string (list string)) :
  (validateParameters vals).1 = true ->
  complete (createEvent vals)
  /\ Get vals "v" = "1" /\ Get vals "t" = "event".
Proof.
  intros Hval. split; [by apply createEvent_complete_reads|].
  destruct (validateParameters_valid_reads vals Hval) as (Hv & _ & Ht & _).
  done.
Qed.

Lemma createEvent_complete_witness : complete (createEvent scenario1).
Proof.
  apply (createEvent_complete scenario1). vm_compute. reflexivity.
Defined.

(** X3: the event depends only on the values of tid, ec, ea and el:
    parameter sets that agree on these four keys build the same event,
    whatever they hold at v, t, cid or any other key. *)
Theorem createEvent_four_keys (data1 data2 : gmap string (list string)) :
  (forall key, key ∈ event_keys -> data1 !! key = data2 !! key) ->
  createEvent data1 = createEvent data2.
Proof.
  intros H. apply createEvent_Get_ext.
  intros key Hkey. apply Get_lookup_ext, H, Hkey.
Qed.

Lemma createEvent_four_keys_witness :
  createEvent scenario1 = createEvent scenario1_extra.
Proof.
  apply (createEvent_four_keys scenario1 scenario1_extra).
  intros key Hkey. unfold event_keys in Hkey.
  repeat (apply elem_of_cons in Hkey as [->|Hkey]; [vm_compute; reflexivity|]).
  by apply elem_of_nil in Hkey.
Defined.

(** ** Rendering, on every slice *)

Lemma multipleErrors_Error_messages (e : multipleErrors) :
  multipleErrors_Error e
  = match messages e with
    | [m] => m
    | msgs => render_lines msgs
    end.
Proof.
  destruct e as [|e0 [|e1 e]]; [reflexivity..|].
  unfold multipleErrors_Error, render_lines. apply Error_loop.
Qed.

(** X4: a slice whose length is other than one, the empty and the nil
    slice included, renders as the header followed by a newline and the
    message for each entry; so the empty slice renders as the bare header,
    and a rendering never is the empty string unless the single entry's
    message is. *)
Theorem multipleErrors_Error_not_single (e : multipleErrors) :
  length e ≠ 1 ->
  multipleErrors_Error e = render_lines (messages e)
  /\ (e = [] -> multipleErrors_Error e = "multiple errors:")
  /\ multipleErrors_Error e ≠ "".
Proof.
  intros Hlen. rewrite multipleErrors_Error_messages.
  destruct e as [|e0 [|e1 e]]; [|done|]; repeat split; done.
Qed.

Lemma multipleErrors_Error_not_single_witness :
  multipleErrors_Error [] = "multiple errors:".
Proof.
  destruct (multipleErrors_Error_not_single []) as (_ & Hnil & _);
    [cbn; lia|].
  by apply Hnil.
Defined.

(** X5: the rendering tells the answers apart: two parameter sets whose
    aggregated errors render to the same string got the same validation
    answer, so a log line identifies the set of violated rules. *)
Theorem validateParameters_render_injective
    (vals1 vals2 : gmap string (list string)) :
  multipleErrors_Error (validateParameters vals1).2
  = multipleErrors_Error (validateParameters vals2).2 ->
  validateParameters vals1 = validateParameters vals2.
Proof.
  unfold validateParameters, append_if. rewrite ?bool_decide_not.
  generalize (bool_decide (Get vals1 "v" = "1")),
             (bool_decide (Get vals1 "tid" = "")),
             (bool_decide (Get vals1 "t" = "event")),
             (bool_decide (Get vals1 "ec" = "")),
             (bool_decide (Get vals1 "ea" = "")).
  intros [] [] [] [] [];
    generalize (bool_decide (Get vals2 "v" = "1")),
               (bool_decide (Get vals2 "tid" = "")),
               (bool_decide (Get vals2 "t" = "event")),
               (bool_decide (Get vals2 "ec" = "")),
               (bool_decide (Get vals2 "ea" = ""));
    intros [] [] [] [] []; vm_compute; intros Heq;
    first [reflexivity | discriminate Heq].
Qed.

Lemma validateParameters_render_injective_witness :
  validateParameters scenario2 = validateParameters scenario2_extra.
Proof.
  apply (validateParameters_render_injective scenario2 scenario2_extra).
  vm_compute. reflexivity.
Defined.

(** ** The handler on every request *)

Section ServerProperties.
Context {DS : Type} `{!Datastore DS}.
Implicit Types (σ : World DS) (r : Request) (g : goroutine).

Lemma CollectData_cases r σ :
  ((validateParameters (URL_Query r)).1 = false
   /\ exec (CollectData r) σ
      = exec (WriteHeader StatusBadRequest)
          (exec (log_Print (validateParameters (URL_Query r)).2) σ))
  \/ ((validateParameters (URL_Query r)).1 = true
      /\ exec (CollectData r) σ
         = exec (WriteHeader StatusOK)
             (exec (go (go_record (createEvent (URL_Query r))))
                (exec (call_of_createEvent (URL_Query r)) σ))).
Proof.
  destruct ((validateParameters (URL_Query r)).1) eqn:Hval.
  - right. split; [reflexivity|]. by apply CollectData_valid_exec.
  - left. split; [reflexivity|]. by apply CollectData_invalid_exec.
Qed.

(** X6: whatever the request, the handler itself never calls [LogIt] and
    leaves the store as it found it, and it never writes to the response
    body: the store is reached from the goroutine only. *)
Theorem CollectData_store_untouched r σ :
  coll (exec (CollectData r) σ) = coll σ
  /\ logged_events (calls (exec (CollectData r) σ)) = logged_events (calls σ)
  /\ Body (w (exec (CollectData r) σ)) = Body (w σ).
Proof.
  destruct (CollectData_cases r σ) as [[_ ->]|[_ ->]];
    unfold exec, WriteHeader, log_Print, go, call_of_createEvent,
      logged_events; cbn.
  - by destruct (Code (w σ)).
  - rewrite omap_app. cbn. rewrite app_nil_r. by destruct (Code (w σ)).
Qed.

(** X7: the handler adds to the log exactly the entry of the violated
    rules: nothing when the request is valid, the message itself when one
    rule is violated, and the header with one line per message when several
    are. *)
Theorem CollectData_log r σ :
  log (exec (CollectData r) σ)
  = log σ ++ log_entries (violated_messages (URL_Query r)).
Proof.
  rewrite <- validateParameters_messages.
  destruct (CollectData_cases r σ) as [[Hinv ->]|[Hval ->]].
  - unfold exec, WriteHeader, log_Print. cbn. f_equal.
    unfold Error, multipleErrors_error.
    rewrite multipleErrors_Error_messages.
    apply validateParameters_invalid_nonempty in Hinv.
    destruct ((validateParameters (URL_Query r)).2) as [|e0 [|e1 e]];
      [done | reflexivity..].
  - rewrite (validateParameters_valid_nil _ Hval).
    unfold exec, WriteHeader, go, call_of_createEvent. cbn.
    by rewrite app_nil_r.
Qed.
End ServerProperties.

(** ** The serving process *)

Section ProcessProperties.
Context {DS : Type} `{!Datastore DS}.
Implicit Types (σ : World DS) (r : Request) (g : goroutine).

Lemma run_goroutine_calls (datatype : Event) σ :
  calls (exec (run_goroutine (go_record datatype)) σ)
  = calls σ ++ [call_LogIt datatype]
  /\ goroutines (exec (run_goroutine (go_record datatype)) σ) = goroutines σ.
Proof.
  unfold exec, run_goroutine, record, mbind, M_bind, store_LogIt.
  destruct (LogIt datatype (store (coll σ))) as [[err|] ds]; cbn; done.
Qed.

(** A scheduler step moves one event from the queue to the store. *)
Lemma sched_step_events σ σ' :
  sched_step σ σ' ->
  created_params (calls σ') = created_params (calls σ)
  /\ length (goroutines σ') + 1 = length (goroutines σ)
  /\ exists datatype,
       logged_events (calls σ') = logged_events (calls σ) ++ [datatype]
       /\ queued_events (goroutines σ) ≡ₚ datatype :: queued_events (goroutines σ').
Proof.
  intros Hstep. destruct Hstep as [σ gs1 [datatype] gs2 Hgs].
  destruct (run_goroutine_calls datatype (set_goroutines (gs1 ++ gs2) σ))
    as [-> ->].
  cbn. rewrite Hgs. unfold created_params, logged_events, queued_events.
  rewrite !omap_app, !fmap_app, !length_app. cbn.
  rewrite app_nil_r. split; [done|]. split; [lia|].
  exists datatype. split; [done|]. by rewrite Permutation_middle.
Qed.

Lemma server_step_inv σ σ' :
  server_step σ σ' -> server_inv σ -> server_inv σ'.
Proof.
  intros Hstep [Hcreated Hevents]. destruct Hstep as [σ rw r|σ σ' Hstep].
  - destruct (CollectData_cases r (set_w rw σ)) as [[_ ->]|[Hval ->]];
      unfold server_inv, exec, WriteHeader, log_Print, go,
        call_of_createEvent, set_w; cbn; [done|].
    unfold created_params, logged_events, queued_events in *.
    rewrite !omap_app, !fmap_app. cbn. rewrite app_nil_r. split.
    + apply Forall_app. split; [done|]. by apply Forall_singleton.
    + by rewrite app_assoc, Hevents.
  - destruct (sched_step_events _ _ Hstep) as (Hc & _ & datatype & Hl & Hq).
    unfold server_inv. rewrite Hc, Hl. split; [done|].
    rewrite <- Hevents, Hq, <- app_assoc. done.
Qed.

Lemma server_steps_inv σ σ' :
  rtc server_step σ σ' -> server_inv σ -> server_inv σ'.
Proof.
  induction 1 as [σ|σ σ1 σ' Hstep _ IH]; [done|].
  intros Hinv. by eapply IH, server_step_inv.
Qed.

Lemma initial_world_inv (ds : DS) : server_inv (initial_world ds).
Proof. split; [by apply Forall_nil|done]. Qed.

(** X8: in a process started with an empty history, the store's [LogIt] is
    only ever called with complete events: every event delivered, and every
    event still queued, was built from a parameter set that passes
    validation. *)
Theorem server_delivers_validated (ds : DS) σ :
  rtc server_step (initial_world ds) σ ->
  Forall (fun data => (validateParameters data).1 = true)
    (created_params (calls σ))
  /\ Forall complete (logged_events (calls σ))
  /\ Forall complete (queued_events (goroutines σ))
  /\ (forall datatype,
         datatype ∈ logged_events (calls σ) ++ queued_events (goroutines σ) ->
         exists data, (validateParameters data).1 = true
                      /\ datatype = createEvent data).
Proof.
  intros Hsteps.
  destruct (server_steps_inv _ _ Hsteps (initial_world_inv ds))
    as [Hcreated Hevents].
  assert (Hfrom : forall datatype,
             datatype ∈ logged_events (calls σ) ++ queued_events (goroutines σ) ->
             exists data, (validateParameters data).1 = true
                          /\ datatype = createEvent data).
  { intros datatype Hin. rewrite Hevents in Hin.
    apply list_elem_of_fmap in Hin as (data & -> & Hdata).
    exists data. split; [|done].
    by apply (proj1 (Forall_forall _ _) Hcreated). }
  split; [done|]. split; [|split; [|done]].
  - apply Forall_forall. intros datatype Hin.
    destruct (Hfrom datatype) as (data & Hval & Heq).
    { apply elem_of_app. by left. }
    rewrite Heq. by apply createEvent_complete_reads.
  - apply Forall_forall. intros datatype Hin.
    destruct (Hfrom datatype) as (data & Hval & Heq).
    { apply elem_of_app. by right. }
    rewrite Heq. by apply createEvent_complete_reads.
Qed.

End ProcessProperties.

(** ** Draining the queue *)

Section SchedulerProperties.
Context {DS : Type} `{!Datastore DS}.
Implicit Types (σ : World DS) (g : goroutine).



End SchedulerProperties.

(** Scenario 1 served over the failing store, then its goroutine run. *)
Lemma failing_recorded_reachable :
  rtc server_step (initial_world FailingStore) failing_recorded.
Proof.
  eapply rtc_l; [|apply rtc_once, server_sched, failing_served_step].
  exact (server_serve (initial_world FailingStore) new_response request1).
Qed.

Lemma server_delivers_validated_witness :
  Forall complete (logged_events (calls failing_recorded)).
Proof.
  destruct (server_delivers_validated FailingStore failing_recorded)
    as (_ & Hlogged & _); [exact failing_recorded_reachable | exact Hlogged].
Defined.

